(** * superstruct: coercion combinators ([src/structs/coercions.ts])

    A shallow embedding of the coercion layer of superstruct.  JavaScript
    values are a small inductive type; objects live in a heap indexed by
    locations, so that "the same object" and "a fresh copy" are different
    things, as they are in the source.  Code that may allocate, mutate or
    throw runs in the monad [M]; code that only inspects the heap is a
    function of the heap.

    Boundaries of the model:
    - numbers are integers (no claim depends on floating point);
    - strings are sequences of 8-bit code units (the Latin-1 range);
    - an object carries its own data properties, in insertion order, and
      inherits the members of its prototypes: those of [Object.prototype],
      of [Array.prototype] for an array, and of its class for an instance.
      Inherited members are not enumerable.  Objects without a prototype,
      enumerable inherited properties, accessors other than [__proto__]
      and symbols are outside the model, and so is the change of
      prototype that an assignment through [__proto__] makes;
    - a function value is a handle [VFun g] into a table of bodies
      ([fun_body]); the own properties of functions are not modelled. *)

From stdpp Require Import base gmap list strings.
From Stdlib Require Import ZArith Ascii String.

Local Open Scope string_scope.

(** ** Values, objects and the heap *)

Abbreviation loc := positive.
Definition fid := nat.

Inductive value : Type :=
| VUndefined
| VNull
| VBool (b : bool)
| VNum (n : Z)
| VStr (s : string)
| VRef (l : loc)
| VFun (g : fid).

Global Instance value_eq_dec : EqDecision value.
Proof. solve_decision. Defined.

Definition props := list (string * value).

(** What [Object.prototype.toString] and the prototype tell apart: object
    literals, arrays with their [length], and instances of any other
    class (Map, Date, a struct, ...) with the members that the prototypes
    of the class give them, nearest first. *)
Inductive obj_kind : Type :=
| KPlain
| KArray (len : nat)
| KInstance (members : props).

Global Instance obj_kind_eq_dec : EqDecision obj_kind.
Proof. solve_decision. Defined.

(** The elements of an array are its properties ["0"], ["1"], ..., holes
    left out; its [length] is an own property that enumeration skips. *)
Record obj : Type := Obj { o_kind : obj_kind; o_props : props }.

Global Instance obj_eq_dec : EqDecision obj.
Proof. solve_decision. Defined.

Abbreviation heap := (gmap loc obj).

Definition fresh_loc (h : heap) : loc := fresh (dom h).

(** ** Property tables *)

Fixpoint lookup_prop (k : string) (ps : props) : option value :=
  match ps with
  | [] => None
  | (k', v) :: ps' => if String.eqb k k' then Some v else lookup_prop k ps'
  end.

(** [o[k] = v] on a property table: overwrite in place, or append. *)
Fixpoint set_prop (k : string) (v : value) (ps : props) : props :=
  match ps with
  | [] => [(k, v)]
  | (k', v') :: ps' =>
      if String.eqb k k' then (k, v) :: ps' else (k', v') :: set_prop k v ps'
  end.

Definition has_prop (k : string) (ps : props) : bool :=
  bool_decide (is_Some (lookup_prop k ps)).

Definition keys (ps : props) : list string := map fst ps.

Definition mem_key (k : string) (ks : list string) : bool :=
  existsb (String.eqb k) ks.

(** ** The built-in prototypes

    The members of a built-in prototype are functions; each is given a
    handle of its own.  [__proto__] is an accessor: reading it yields the
    prototype, which is not an object of the heap, and a handle stands
    for it as well; the code below compares that value with [undefined]
    or assigns it back through [__proto__], nothing else. *)
Definition builtin_members (base : nat) (names : list string) : props :=
  imap (fun i name => (name, VFun (base + i))) names.

Definition Object_prototype : props :=
  builtin_members 1000
    ["constructor"; "__defineGetter__"; "__defineSetter__"; "hasOwnProperty";
     "__lookupGetter__"; "__lookupSetter__"; "isPrototypeOf";
     "propertyIsEnumerable"; "toString"; "valueOf"; "__proto__";
     "toLocaleString"].

Definition Array_prototype : props :=
  builtin_members 2000
    ["constructor"; "at"; "concat"; "copyWithin"; "fill"; "find"; "findIndex";
     "findLast"; "findLastIndex"; "lastIndexOf"; "pop"; "push"; "reverse";
     "shift"; "unshift"; "slice"; "sort"; "splice"; "includes"; "indexOf";
     "join"; "keys"; "entries"; "values"; "forEach"; "filter"; "flat";
     "flatMap"; "map"; "every"; "some"; "reduce"; "reduceRight";
     "toLocaleString"; "toString"; "toReversed"; "toSorted"; "toSpliced";
     "with"].

(** The members an object inherits along its prototype chain, nearest
    first; every chain ends in [Object.prototype]. *)
Definition inherited (k : obj_kind) : props :=
  match k with
  | KPlain => Object_prototype
  | KArray _ => (Array_prototype ++ Object_prototype)%list
  | KInstance members => (members ++ Object_prototype)%list
  end.

(** ** Outcomes and the monad of effectful code *)

Inductive outcome (A : Type) : Type :=
| Ret (a : A) (h : heap)
| Throw (e : value) (h : heap).
Arguments Ret {A} a h.
Arguments Throw {A} e h.

Definition M (A : Type) : Type := heap -> outcome A.

Definition ret {A} (a : A) : M A := fun h => Ret a h.

Definition bind {A B} (m : M A) (k : A -> M B) : M B :=
  fun h => match m h with
           | Ret a h' => k a h'
           | Throw e h' => Throw e h'
           end.

Definition throw {A} (e : value) : M A := fun h => Throw e h.

(** Run a pure inspection of the heap. *)
Definition reads {A} (f : heap -> A) : M A := fun h => Ret (f h) h.

Notation "'let*' x := m 'in' k" := (bind m (fun x => k))
  (at level 10, x name, m at level 100, k at level 200, only parsing).

Definition returns {A} (o : outcome A) : bool :=
  match o with Ret _ _ => true | Throw _ _ => false end.

(** The value thrown by the engine for an ill-typed operation. *)
Definition TypeError : value := VStr "TypeError".

(** ** Primitive operations of the language *)

Definition typeof (v : value) : string :=
  match v with
  | VUndefined => "undefined"
  | VNull => "object"
  | VBool _ => "boolean"
  | VNum _ => "number"
  | VStr _ => "string"
  | VRef _ => "object"
  | VFun _ => "function"
  end.

(** [v === w] on the values of the model. *)
Definition strict_eq (v w : value) : bool := bool_decide (v = w).

(** [v == null]: true of [null] and [undefined] only. *)
Definition is_nullish (v : value) : bool :=
  match v with VUndefined | VNull => true | _ => false end.

Definition own_props (h : heap) (v : value) : props :=
  match v with
  | VRef l => match h !! l with Some o => o_props o | None => [] end
  | _ => []
  end.

Definition kind_of (h : heap) (v : value) : option obj_kind :=
  match v with
  | VRef l => o_kind <$> h !! l
  | _ => None
  end.


(** The keys visited by [for (const key in v)]. *)
Definition enumerable_keys (h : heap) (v : value) : list string :=
  keys (own_props h v).

(** The value of the key [k] on an object: its [length] for an array,
    its own property, or else the nearest inherited member;
    [undefined] when there is none. *)
Definition read_member (o : obj) (k : string) : value :=
  match o_kind o with
  | KArray len =>
      if String.eqb k "length" then VNum (Z.of_nat len)
      else default (default VUndefined (lookup_prop k (inherited (o_kind o))))
             (lookup_prop k (o_props o))
  | _ =>
      default (default VUndefined (lookup_prop k (inherited (o_kind o))))
        (lookup_prop k (o_props o))
  end.

(** Whether an object has the key [k], as an own property or along its
    prototype chain. *)
Definition has_member (o : obj) (k : string) : bool :=
  has_prop k (o_props o)
  || match o_kind o with KArray _ => String.eqb k "length" | _ => false end
  || has_prop k (inherited (o_kind o)).

(** [key in x] on an object of the heap. *)
Definition has_property (h : heap) (v : value) (k : string) : bool :=
  match v with
  | VRef l => match h !! l with Some o => has_member o k | None => false end
  | _ => false
  end.

(** [x[key]] on an object of the heap. *)
Definition read_property (h : heap) (v : value) (k : string) : value :=
  match v with
  | VRef l => match h !! l with Some o => read_member o k | None => VUndefined end
  | _ => VUndefined
  end.

(** [o[k] = v] on the table of an object.  An object without an own
    [__proto__] takes the assignment through the inherited accessor,
    which creates no own property. *)
Definition assign (k : string) (v : value) (ps : props) : props :=
  if String.eqb k "__proto__" && negb (has_prop k ps) then ps
  else set_prop k v ps.

(** [key in x]: a TypeError unless [x] is an object.  The combinators
    reach this operation, and the two below, on objects of the heap only;
    the properties of functions and of primitive values are not
    modelled. *)
Definition in_op (k : string) (x : value) : M bool :=
  match x with
  | VRef _ => reads (fun h => has_property h x k)
  | VFun _ => ret false
  | _ => throw TypeError
  end.

(** [x[key]]: a TypeError on [undefined] and [null]. *)
Definition get_prop (x : value) (k : string) : M value :=
  match x with
  | VUndefined | VNull => throw TypeError
  | VRef _ => reads (fun h => read_property h x k)
  | _ => ret VUndefined
  end.

(** [x[key] = v]: a TypeError on [undefined] and [null], ignored on the
    other primitives, a mutation of the heap on an object.  The
    combinators assign to object literals of their own only; the growth
    of an array's [length] is not modelled. *)
Definition put_prop (x : value) (k : string) (v : value) : M unit :=
  match x with
  | VUndefined | VNull => throw TypeError
  | VRef l =>
      fun h => match h !! l with
               | Some o => Ret tt (<[l := Obj (o_kind o) (assign k v (o_props o))]> h)
               | None => Ret tt h
               end
  | _ => ret tt
  end.

(** An object literal [{ ... }] with the given properties: a fresh
    location. *)
Definition new_object (ps : props) : M value :=
  fun h => Ret (VRef (fresh_loc h)) (<[fresh_loc h := Obj KPlain ps]> h).

(** [{ ...x }]: a fresh plain object with the own enumerable properties of
    [x]. *)
Definition spread (x : value) : M value :=
  let* ps := reads (fun h => own_props h x) in new_object ps.

Fixpoint for_in_loop {A} (ks : list string) (body : string -> A -> M A) (acc : A) : M A :=
  match ks with
  | [] => ret acc
  | k :: ks' => let* acc' := body k acc in for_in_loop ks' body acc'
  end.

(** [for (const key in o) body], threading the variables the body
    assigns. *)
Definition for_in {A} (o : value) (body : string -> A -> M A) (acc : A) : M A :=
  let* ks := reads (fun h => enumerable_keys h o) in for_in_loop ks body acc.

(** *** [String.prototype.trim] *)

Definition is_white_space (a : ascii) : bool :=
  let n := nat_of_ascii a in
  (Nat.eqb n 9 || Nat.eqb n 10 || Nat.eqb n 11 || Nat.eqb n 12 ||
   Nat.eqb n 13 || Nat.eqb n 32 || Nat.eqb n 160)%bool.

Fixpoint trim_start (s : string) : string :=
  match s with
  | EmptyString => EmptyString
  | String a s' => if is_white_space a then trim_start s' else s
  end.

Fixpoint trim_end (s : string) : string :=
  match s with
  | EmptyString => EmptyString
  | String a s' =>
      match trim_end s' with
      | EmptyString => if is_white_space a then EmptyString else String a EmptyString
      | t => String a t
      end
  end.

Definition trim (s : string) : string := trim_end (trim_start s).

(** [x.trim()]: defined on strings. *)
Definition call_trim (x : value) : M value :=
  match x with
  | VStr s => ret (VStr (trim s))
  | _ => throw TypeError
  end.

(** ** Structs and validation ([src/struct.ts], [src/structs/types.ts],
    [src/utils.ts]) *)

Module Failure.
(** Modelled from the spec: the failure record of section 3, with the
    location [path], the expected [type], the ancestors [branch], the
    optional [reason] and the offending [value]. *)
Record t : Type := mk {
  path : list value;
  type : string;
  branch : list value;
  reason : option string;
  value : value
}.
End Failure.

(** Modelled from the spec: the position of a validation call inside the
    input (section 4.2), the path walked so far and the values met on the
    way. *)
Record Context : Type := { ctx_path : list value; ctx_branch : list value }.

Module Struct.
(** Modelled from the spec: the class [Struct] of [src/struct.ts], an
    immutable record of a type tag, a schema descriptor, a coercion
    function and a validation function (section 3).  A validator
    inspects the value and the heap and answers with the first failure,
    if any. *)
Record t : Type := mk {
  type : string;
  schema : value;
  coercer : value -> M value;
  validator : value -> Context -> heap -> option Failure.t
}.
End Struct.

(** Modelled from the spec: the object handed to [new Struct(...)], in
    which [coercer] may be left out (section 4.1). *)
Record StructProps : Type := {
  props_type : string;
  props_schema : value;
  props_coercer : option (value -> M value);
  props_validator : value -> Context -> heap -> option Failure.t
}.

(** Modelled from the spec: the constructor of [Struct], absent from the
    sources at hand; an omitted [coercer] is the identity (section 4.1). *)
Definition new_Struct (p : StructProps) : Struct.t :=
  {| Struct.type := props_type p;
     Struct.schema := props_schema p;
     Struct.coercer := default ret (props_coercer p);
     Struct.validator := props_validator p |}.

(** [{ ...struct, coercer: c }] *)
Definition with_coercer (struct : Struct.t) (c : value -> M value) : StructProps :=
  {| props_type := Struct.type struct;
     props_schema := Struct.schema struct;
     props_coercer := Some c;
     props_validator := Struct.validator struct |}.

(** Modelled from the spec: a failure at the current position. *)
Definition fail (ctx : Context) (v : value) (ty : string) : Failure.t :=
  {| Failure.path := ctx_path ctx;
     Failure.type := ty;
     Failure.branch := ctx_branch ctx;
     Failure.reason := None;
     Failure.value := v |}.

(** Modelled from the spec: descending into a nested struct extends the
    path with the key and the branch with the value (section 4.2). *)
Definition check (v : value) (struct : Struct.t) (ctx : Context) (key : value)
  : heap -> option Failure.t :=
  Struct.validator struct v
    {| ctx_path := ctx_path ctx ++ [key]; ctx_branch := ctx_branch ctx ++ [v] |}.

(** Modelled from the spec: validation starts at the root with an empty
    path and the input as the only ancestor. *)
Definition validate (v : value) (struct : Struct.t) : heap -> option Failure.t :=
  Struct.validator struct v {| ctx_path := []; ctx_branch := [v] |}.

(** Modelled from the spec: [is(value, struct)] of [src/struct.ts], the
    validity check that ignores coercion and answers with a boolean
    (section 6); [is] is a reserved word here. *)
Definition is_ (v : value) (struct : Struct.t) (h : heap) : bool :=
  match validate v struct h with None => true | Some _ => false end.

(** Modelled from the spec: [isPlainObject] of [src/utils.ts], true of
    key-value records only: not of arrays, class instances, [null] or
    primitives (sections 4.4 and 9). *)
Definition isPlainObject (h : heap) (v : value) : bool :=
  bool_decide (kind_of h v = Some KPlain).

(** A struct rejects a value where it stands: whatever the position, its
    validator answers with the failure made of that position, the value
    and the struct's type tag. *)
Definition fails_in_place (S : Struct.t) (v : value) (h : heap) : Prop :=
  forall ctx, Struct.validator S v ctx h = Some (fail ctx v (Struct.type S)).

(** Modelled from the spec: the first failure of a sequence of checks,
    the fail-fast traversal of section 4.2. *)
Fixpoint first_failure (cs : list (heap -> option Failure.t)) (h : heap)
  : option Failure.t :=
  match cs with
  | [] => None
  | c :: cs' => match c h with Some f => Some f | None => first_failure cs' h end
  end.

Module types.
(** Modelled from the spec: [unknown()], the guard every value passes. *)
Definition unknown : Struct.t :=
  new_Struct {| props_type := "unknown"; props_schema := VUndefined;
                props_coercer := None;
                props_validator := fun _ _ _ => None |}.

(** Modelled from the spec: [number()], a leaf that number values pass. *)
Definition number : Struct.t :=
  new_Struct {| props_type := "number"; props_schema := VUndefined;
                props_coercer := None;
                props_validator := fun v ctx _ =>
                  if String.eqb (typeof v) "number" then None
                  else Some (fail ctx v "number") |}.

(** Modelled from the spec: [map(Key, Value)], a container whose type
    tag is built from those of its children.  A value that is not an
    object fails where it stands; the entries of an object are checked
    in turn, key then value, each under the entry's key.  The descriptor
    [descr] stands for the record of the two child structs. *)
Definition map (descr : value) (Key Value : Struct.t) : Struct.t :=
  let ty := "Map<" ++ Struct.type Key ++ "," ++ Struct.type Value ++ ">" in
  new_Struct {| props_type := ty; props_schema := descr;
                props_coercer := None;
                props_validator := fun v ctx h =>
                  if String.eqb (typeof v) "object" && negb (is_nullish v) then
                    first_failure
                      (flat_map (fun kv : String.string * value =>
                                   [check (VStr (fst kv)) Key ctx (VStr (fst kv));
                                    check (snd kv) Value ctx (VStr (fst kv))])
                                (own_props h v)) h
                  else Some (fail ctx v ty) |}.

(** Modelled from the spec: [string()], a leaf that string values, and
    only they, pass. *)
Definition string : Struct.t :=
  new_Struct {| props_type := "string"; props_schema := VUndefined;
                props_coercer := None;
                props_validator := fun v ctx _ =>
                  if String.eqb (typeof v) "string" then None
                  else Some (fail ctx v "string") |}.
End types.

(** ** The combinators of [src/structs/coercions.ts] *)

Definition coerce (struct condition : Struct.t) (coercer : value -> M value)
  : Struct.t :=
  let fn := Struct.coercer struct in
  new_Struct (with_coercer struct (fun value =>
    let* ok := reads (is_ value condition) in
    if ok then let* value' := coercer value in fn value'
    else fn value)).

Record Options : Type := { strict : option bool }.

(** The default of the parameter [options]: [{}]. *)
Definition no_options : Options := {| strict := None |}.

(** [!strict], with [strict] possibly left out. *)
Definition not_strict (options : Options) : bool :=
  negb (default false (strict options)).

Section WithFunctions.

(** The bodies of the zero-argument functions that a caller may hand over
    as values. *)
Variable fun_body : fid -> M value.

(** [v()] *)
Definition call (v : value) : M value :=
  match v with
  | VFun g => fun_body g
  | _ => throw TypeError
  end.

(** [typeof fallback === 'function' ? fallback() : fallback] *)
Definition resolve_fallback (fallback : value) : M value :=
  if String.eqb (typeof fallback) "function" then call fallback else ret fallback.

(** The arrow function that [defaulted] hands to [coerce].  [ret_] is the
    local [ret], [changed] the flag the loop assigns. *)
Definition defaulted_coercion (fallback : value) (options : Options)
  : value -> M value :=
  fun x =>
    let* f := resolve_fallback fallback in
    if strict_eq x VUndefined then ret f
    else
      let* plain := reads (fun h => isPlainObject h x && isPlainObject h f) in
      if not_strict options && plain then
        let* ret_ := spread x in
        let* changed :=
          for_in f (fun key changed =>
            let* cur := get_prop ret_ key in
            if strict_eq cur VUndefined then
              let* fv := get_prop f key in
              let* _ := put_prop ret_ key fv in
              ret true
            else ret changed) false in
        if changed then ret ret_ else ret x
      else ret x.

Definition defaulted (S : Struct.t) (fallback : value) (options : Options)
  : Struct.t :=
  coerce S types.unknown (defaulted_coercion fallback options).

End WithFunctions.

(** The arrow function that [masked] hands to [coerce]. *)
Definition masked_coercion (struct : Struct.t) : value -> M value :=
  fun x =>
    if negb (String.eqb (typeof (Struct.schema struct)) "object")
       || is_nullish (Struct.schema struct)
       || negb (String.eqb (typeof x) "object")
       || is_nullish x
    then ret x
    else
      let* ret_ := new_object [] in
      let* _ :=
        for_in (Struct.schema struct) (fun key _ =>
          let* present := in_op key x in
          if present then
            let* v := get_prop x key in put_prop ret_ key v
          else ret tt) tt in
      ret ret_.

Definition masked (struct : Struct.t) : Struct.t :=
  coerce struct types.unknown (masked_coercion struct).

Definition trimmed (struct : Struct.t) : Struct.t :=
  coerce struct types.string (fun x => call_trim x).

(** ** Reading the combinators

    One layer of coercion, as [coerce] adds it: the transformation applied
    when the guard accepts the value, the value itself otherwise. *)
Definition layer (condition : Struct.t) (coercer : value -> M value)
  : value -> M value :=
  fun v h => if is_ v condition h then coercer v h else Ret v h.

(** Two layers over [S], the one registered last (the outer one, [c2] and
    [t2]) run first: what the source does. *)
Definition outermost_first (S c1 : Struct.t) (t1 : value -> M value)
  (c2 : Struct.t) (t2 : value -> M value) : value -> M value :=
  fun v =>
    let* v2 := layer c2 t2 v in
    let* v1 := layer c1 t1 v2 in
    Struct.coercer S v1.

(** Two layers over [S], the one registered first (the inner one, [c1] and
    [t1]) run first: the order in the words of the specification. *)
Definition innermost_first (S c1 : Struct.t) (t1 : value -> M value)
  (c2 : Struct.t) (t2 : value -> M value) : value -> M value :=
  fun v =>
    let* v1 := layer c1 t1 v in
    let* v2 := layer c2 t2 v1 in
    Struct.coercer S v2.

(** [o[k]] on a property table. *)
Definition prop_or_undefined (k : string) (ps : props) : value :=
  default VUndefined (lookup_prop k ps).

(** [o[k] === undefined]: the key is absent or holds [undefined]. *)
Definition is_undefined_at (k : string) (ps : props) : bool :=
  strict_eq (prop_or_undefined k ps) VUndefined.

(** [o[k]] on an object literal with table [ps]. *)
Definition read_plain (k : string) (ps : props) : value :=
  read_member (Obj KPlain ps) k.

(** What the loop of [defaulted] does to the table of [ret] and to
    [changed], for the keys [ks] of a fallback with table [fs]. *)
Fixpoint fill_defaults (ks : list string) (fs : props) (acc : props * bool)
  : props * bool :=
  match ks with
  | [] => acc
  | k :: ks' =>
      fill_defaults ks' fs
        (if strict_eq (read_plain k (fst acc)) VUndefined
         then (assign k (read_plain k fs) (fst acc), true)
         else acc)
  end.

(** What the loop of [masked] does to the table of [ret], for the keys
    [ks] of the schema and the input [x] in heap [h]. *)
Fixpoint mask_props (h : heap) (x : value) (ks : list string) (acc : props)
  : props :=
  match ks with
  | [] => acc
  | k :: ks' =>
      mask_props h x ks'
        (if has_property h x k then assign k (read_property h x k) acc else acc)
  end.

(** *** Whitespace at the two ends of a string *)

Fixpoint all_white (s : string) : bool :=
  match s with
  | EmptyString => true
  | String a s' => is_white_space a && all_white s'
  end.

Definition starts_white (s : string) : bool :=
  match s with
  | EmptyString => false
  | String a _ => is_white_space a
  end.

Fixpoint ends_white (s : string) : bool :=
  match s with
  | EmptyString => false
  | String a EmptyString => is_white_space a
  | String _ s' => ends_white s'
  end.

(** The guard of [masked]: the schema and the input are both non-null
    values of type ["object"]. *)
Definition masks (schema x : value) : bool :=
  negb (negb (String.eqb (typeof schema) "object")
        || is_nullish schema
        || negb (String.eqb (typeof x) "object")
        || is_nullish x).

(** ** Sample data *)

(** A program without function values. *)
Definition no_functions : fid -> M value := fun _ => throw TypeError.

(** A program whose function values all are [() => ({ a: 1 })]. *)
Definition record_thunks : fid -> M value := fun _ => new_object [("a", VNum 1)].

Definition strict_options : Options := {| strict := Some true |}.

(** An object-like struct over the schema descriptor [schema]: it accepts
    the non-null objects. *)
Definition record_struct (schema : value) : Struct.t :=
  new_Struct {| props_type := "object"; props_schema := schema;
                props_coercer := None;
                props_validator := fun v ctx _ =>
                  if String.eqb (typeof v) "object" && negb (is_nullish v)
                  then None else Some (fail ctx v "object") |}.

Definition sample_heap : heap :=
  list_to_map
    [ (1%positive, Obj KPlain [("a", VNum 5)]);
      (2%positive, Obj KPlain [("a", VNum 1); ("b", VNum 2)]);
      (3%positive, Obj (KInstance []) [("type", VStr "number")]);
      (4%positive, Obj KPlain [("a", VRef 3)]);
      (5%positive, Obj KPlain [("x", VNum 1); ("y", VNum 2); ("z", VNum 3)]);
      (6%positive, Obj KPlain [("x", VRef 3); ("y", VRef 3)]);
      (7%positive, Obj KPlain [("x", VNum 1); ("z", VNum 3)]);
      (8%positive, Obj KPlain [("y", VNum 2)]);
      (9%positive, Obj (KArray 2) [("0", VNum 7); ("1", VNum 8)]);
      (10%positive, Obj KPlain [("0", VRef 3)]);
      (11%positive, Obj KPlain [("k", VNum 1)]);
      (12%positive, Obj KPlain []);
      (13%positive, Obj KPlain [("a", VNum 1)]);
      (14%positive, Obj KPlain [("a", VNum 5); ("b", VNum 7)]);
      (15%positive, Obj KPlain [("a", VStr "x")]) ].

(** ** Stacks of layers *)

(** A guard and a transformation, as one call of [coerce] takes them. *)
Definition coercion : Type := (Struct.t * (value -> M value))%type.

(** [coerce(... coerce(coerce(S, c1, t1), c2, t2) ..., cn, tn)]: the
    layers of the list registered on [S] one after the other. *)
Definition coerce_all (S : Struct.t) (layers : list coercion) : Struct.t :=
  fold_left (fun s l => coerce s (fst l) (snd l)) layers S.

(** The layers of the list run one after the other, each on the outcome
    of the one before. *)
Fixpoint run_layers (layers : list coercion) (v : value) : M value :=
  match layers with
  | [] => ret v
  | l :: layers' => let* v' := layer (fst l) (snd l) v in run_layers layers' v'
  end.

(** Every object of [h] is in [h'] as it was. *)
Definition preserved (h h' : heap) : Prop :=
  forall l o, h !! l = Some o -> h' !! l = Some o.

(** Objects that meet the built-in prototypes. *)
Definition member_heap : heap :=
  list_to_map
    [ (1%positive, Obj KPlain [("a", VNum 5)]);
      (2%positive, Obj KPlain [("constructor", VNum 1)]);
      (3%positive, Obj (KInstance []) [("type", VStr "number")]);
      (4%positive, Obj KPlain [("toString", VRef 3)]);
      (5%positive, Obj KPlain [("k", VNum 1)]);
      (6%positive, Obj KPlain [("a", VRef 3)]);
      (7%positive, Obj KPlain [("type", VNum 9); ("k", VNum 1)]);
      (8%positive, Obj (KArray 6) [("5", VNum 1)]);
      (9%positive, Obj KPlain [("length", VRef 3); ("map", VRef 3); ("0", VRef 3)]) ].

(** * Properties *)

(** ** Property tables *)

Lemma lookup_set_prop k k' v ps :
  lookup_prop k' (set_prop k v ps) =
  if String.eqb k' k then Some v else lookup_prop k' ps.
Proof.
  induction ps as [|[k0 v0] ps IH]; simpl.
  - reflexivity.
  - destruct (String.eqb k k0) eqn:E; simpl.
    + apply String.eqb_eq in E. subst k0.
      destruct (String.eqb k' k); reflexivity.
    + destruct (String.eqb k' k0) eqn:E'.
      * apply String.eqb_eq in E'. subst k0.
        rewrite String.eqb_sym, E. reflexivity.
      * exact IH.
Qed.

Lemma mem_key_keys k ps :
  mem_key k (keys ps) = has_prop k ps.
Proof.
  unfold has_prop. induction ps as [|[k0 v0] ps IH].
  - reflexivity.
  - cbn [keys map fst mem_key existsb lookup_prop].
    destruct (String.eqb k k0).
    + reflexivity.
    + exact IH.
Qed.

Lemma has_prop_lookup k ps :
  has_prop k ps = true -> lookup_prop k ps = Some (prop_or_undefined k ps).
Proof.
  unfold has_prop, prop_or_undefined. intros H.
  apply bool_decide_eq_true in H. destruct H as [v ->]. reflexivity.
Qed.

Lemma has_prop_false k ps :
  has_prop k ps = false -> lookup_prop k ps = None.
Proof.
  unfold has_prop. intros H. apply bool_decide_eq_false in H.
  destruct (lookup_prop k ps); [exfalso; eauto | reflexivity].
Qed.

(** ** The heap *)

Lemma fresh_loc_None (h : heap) : h !! fresh_loc h = None.
Proof. apply not_elem_of_dom. unfold fresh_loc. apply is_fresh. Qed.

Lemma fresh_loc_ne (h : heap) l o : h !! l = Some o -> l <> fresh_loc h.
Proof. intros H ->. rewrite fresh_loc_None in H. discriminate. Qed.

Lemma own_props_insert_ne (h : heap) r o l :
  l <> r -> own_props (<[r := o]> h) (VRef l) = own_props h (VRef l).
Proof. intros Hne. simpl. rewrite lookup_insert_ne by congruence. reflexivity. Qed.

Lemma kind_of_insert_ne (h : heap) r o l :
  l <> r -> kind_of (<[r := o]> h) (VRef l) = kind_of h (VRef l).
Proof. intros Hne. simpl. rewrite lookup_insert_ne by congruence. reflexivity. Qed.

Lemma has_property_insert_ne (h : heap) r o l k :
  l <> r -> has_property (<[r := o]> h) (VRef l) k = has_property h (VRef l) k.
Proof. intros Hne. simpl. rewrite lookup_insert_ne by congruence. reflexivity. Qed.

Lemma read_property_insert_ne (h : heap) r o l k :
  l <> r -> read_property (<[r := o]> h) (VRef l) k = read_property h (VRef l) k.
Proof. intros Hne. simpl. rewrite lookup_insert_ne by congruence. reflexivity. Qed.

Lemma read_property_plain (h : heap) l ps k :
  h !! l = Some (Obj KPlain ps) -> read_property h (VRef l) k = read_plain k ps.
Proof. intros H. simpl. rewrite H. reflexivity. Qed.

Lemma has_property_plain (h : heap) l ps k :
  h !! l = Some (Obj KPlain ps) ->
  has_property h (VRef l) k = has_prop k ps || has_prop k Object_prototype.
Proof. intros H. simpl. rewrite H. unfold has_member. simpl. rewrite orb_false_r. reflexivity. Qed.

Lemma read_plain_lookup k ps :
  read_plain k ps =
  default (default VUndefined (lookup_prop k Object_prototype)) (lookup_prop k ps).
Proof. reflexivity. Qed.

Lemma has_prop_is_Some k ps : has_prop k ps = true <-> is_Some (lookup_prop k ps).
Proof. unfold has_prop. apply bool_decide_eq_true. Qed.

Lemma has_prop_set_prop k k' v ps :
  has_prop k' (set_prop k v ps) = String.eqb k' k || has_prop k' ps.
Proof.
  unfold has_prop. rewrite lookup_set_prop.
  destruct (String.eqb k' k); [|reflexivity].
  apply bool_decide_eq_true. eauto.
Qed.

(** Something that reads as [undefined] on an object literal is not the
    inherited [__proto__], so assigning to it is a plain assignment. *)
Lemma assign_undefined k v ps :
  strict_eq (read_plain k ps) VUndefined = true -> assign k v ps = set_prop k v ps.
Proof.
  intros H. unfold assign.
  destruct (String.eqb k "__proto__") eqn:Ek; [|reflexivity].
  destruct (has_prop k ps) eqn:Eh; [reflexivity|].
  apply String.eqb_eq in Ek. subst k.
  rewrite read_plain_lookup, (has_prop_false _ _ Eh) in H. discriminate.
Qed.

Lemma has_prop_assign_proto k v ps :
  has_prop "__proto__" ps = false -> has_prop "__proto__" (assign k v ps) = false.
Proof.
  intros H. unfold assign.
  destruct (String.eqb k "__proto__") eqn:Ek.
  - apply String.eqb_eq in Ek. subst k. rewrite H. exact H.
  - cbn [andb]. rewrite has_prop_set_prop, H, String.eqb_sym, Ek. reflexivity.
Qed.

Lemma lookup_assign k k' v ps :
  has_prop "__proto__" ps = false ->
  lookup_prop k' (assign k v ps) =
  if negb (String.eqb k "__proto__") && String.eqb k' k then Some v
  else lookup_prop k' ps.
Proof.
  intros H. unfold assign.
  destruct (String.eqb k "__proto__") eqn:Ek.
  - apply String.eqb_eq in Ek. subst k. rewrite H. reflexivity.
  - cbn [andb negb]. apply lookup_set_prop.
Qed.

Lemma isPlainObject_true h v :
  isPlainObject h v = true ->
  exists l ps, v = VRef l /\ h !! l = Some (Obj KPlain ps).
Proof.
  unfold isPlainObject. intros H. apply bool_decide_eq_true in H.
  destruct v; simpl in H; try discriminate.
  destruct (h !! l) as [[k ps]|] eqn:E; simpl in H; [|discriminate].
  exists l, ps. split; [reflexivity|]. congruence.
Qed.

(** ** [coerce] *)

Lemma coercer_coerce S c t v h :
  Struct.coercer (coerce S c t) v h =
  if is_ v c h then bind (t v) (Struct.coercer S) h else Struct.coercer S v h.
Proof. unfold coerce; simpl. unfold bind, reads. destruct (is_ v c h); reflexivity. Qed.

Lemma coercer_coerce_layer S c t v h :
  Struct.coercer (coerce S c t) v h = bind (layer c t v) (Struct.coercer S) h.
Proof.
  rewrite coercer_coerce. unfold bind, layer. destruct (is_ v c h); reflexivity.
Qed.

Lemma is_unknown v h : is_ v types.unknown h = true.
Proof. reflexivity. Qed.

Lemma is_string v h : is_ v types.string h = String.eqb (typeof v) "string".
Proof. unfold is_, validate. simpl. destruct (String.eqb (typeof v) "string"); reflexivity. Qed.

Lemma coercer_coerce_unknown S t v h :
  Struct.coercer (coerce S types.unknown t) v h = bind (t v) (Struct.coercer S) h.
Proof. rewrite coercer_coerce, is_unknown. reflexivity. Qed.

(** The loop of [defaulted], run on a heap where [ret] sits at [r] and the
    fallback at [lf]. *)
Lemma defaulted_loop (h : heap) r lf fs ks :
  lf <> r -> h !! lf = Some (Obj KPlain fs) ->
  forall ps changed,
    for_in_loop ks
      (fun key changed =>
         let* cur := get_prop (VRef r) key in
         if strict_eq cur VUndefined then
           let* fv := get_prop (VRef lf) key in
           let* _ := put_prop (VRef r) key fv in
           ret true
         else ret changed)
      changed (<[r := Obj KPlain ps]> h)
    = Ret (snd (fill_defaults ks fs (ps, changed)))
          (<[r := Obj KPlain (fst (fill_defaults ks fs (ps, changed)))]> h).
Proof.
  intros Hne Hf. induction ks as [|k ks IH]; intros ps changed.
  - reflexivity.
  - cbn [for_in_loop fill_defaults fst snd].
    unfold bind at 1. unfold bind at 1. unfold get_prop at 1. unfold reads at 1.
    rewrite (read_property_plain _ r ps) by apply lookup_insert_eq.
    destruct (strict_eq (read_plain k ps) VUndefined).
    + unfold bind at 1. unfold get_prop at 1. unfold reads at 1.
      rewrite read_property_insert_ne by assumption.
      rewrite (read_property_plain _ lf fs) by assumption.
      unfold bind at 1. unfold put_prop.
      rewrite lookup_insert_eq. cbn [o_kind o_props]. unfold ret at 1.
      rewrite insert_insert_eq. apply IH.
    + unfold ret at 1. apply IH.
Qed.

Lemma fill_defaults_changed ks fs : forall ps changed,
  snd (fill_defaults ks fs (ps, changed)) =
  changed || existsb (fun k => strict_eq (read_plain k ps) VUndefined) ks.
Proof.
  induction ks as [|k ks IH]; intros ps changed; cbn [fill_defaults existsb fst].
  - rewrite orb_false_r. reflexivity.
  - destruct (strict_eq (read_plain k ps) VUndefined) eqn:E.
    + rewrite IH. simpl. rewrite orb_true_r. reflexivity.
    + rewrite IH. reflexivity.
Qed.

Lemma fill_defaults_lookup ks fs k : forall ps changed,
  lookup_prop k (fst (fill_defaults ks fs (ps, changed))) =
  if strict_eq (read_plain k ps) VUndefined && mem_key k ks
  then Some (read_plain k fs)
  else lookup_prop k ps.
Proof.
  induction ks as [|k0 ks IH]; intros ps changed; cbn [fill_defaults fst mem_key existsb].
  - rewrite andb_false_r. reflexivity.
  - fold (mem_key k ks).
    destruct (strict_eq (read_plain k0 ps) VUndefined) eqn:E0.
    + rewrite (assign_undefined _ _ _ E0), IH.
      rewrite (read_plain_lookup k (set_prop _ _ _)), lookup_set_prop.
      destruct (String.eqb k k0) eqn:Ek.
      * apply String.eqb_eq in Ek. subst k0. rewrite E0. cbn [orb andb default].
        by repeat case_match.
      * cbn [orb]. rewrite <- read_plain_lookup. reflexivity.
    + rewrite IH.
      destruct (String.eqb k k0) eqn:Ek.
      * apply String.eqb_eq in Ek. subst k0. rewrite E0. reflexivity.
      * reflexivity.
Qed.

Lemma fill_defaults_unchanged ks fs : forall ps changed,
  existsb (fun k => strict_eq (read_plain k ps) VUndefined) ks = false ->
  fst (fill_defaults ks fs (ps, changed)) = ps.
Proof.
  induction ks as [|k ks IH]; intros ps changed H; cbn [fill_defaults fst].
  - reflexivity.
  - simpl in H. apply orb_false_iff in H as [-> H]. apply IH, H.
Qed.

(** ** The coercion added by [defaulted] *)

Section Defaulted.

Variable fun_body : fid -> M value.

Lemma resolve_fallback_value fallback h :
  typeof fallback <> "function" ->
  resolve_fallback fun_body fallback h = Ret fallback h.
Proof.
  intros H. unfold resolve_fallback.
  destruct (String.eqb (typeof fallback) "function") eqn:E.
  - apply String.eqb_eq in E. contradiction.
  - reflexivity.
Qed.

Lemma resolve_fallback_function g h :
  resolve_fallback fun_body (VFun g) h = fun_body g h.
Proof. reflexivity. Qed.

Lemma defaulted_coercion_undefined fallback options h :
  defaulted_coercion fun_body fallback options VUndefined h =
  resolve_fallback fun_body fallback h.
Proof.
  unfold defaulted_coercion, bind. cbn [strict_eq].
  destruct (resolve_fallback fun_body fallback h); reflexivity.
Qed.

Lemma defaulted_coercion_keep fallback options x h f h1 :
  x <> VUndefined ->
  resolve_fallback fun_body fallback h = Ret f h1 ->
  not_strict options && (isPlainObject h1 x && isPlainObject h1 f) = false ->
  defaulted_coercion fun_body fallback options x h = Ret x h1.
Proof.
  intros Hx Hf Hg. unfold defaulted_coercion, bind. rewrite Hf.
  unfold strict_eq. rewrite bool_decide_eq_false_2 by assumption.
  unfold reads. rewrite Hg. reflexivity.
Qed.

Lemma defaulted_coercion_merge fallback options lx xs lf fs h h1 :
  resolve_fallback fun_body fallback h = Ret (VRef lf) h1 ->
  not_strict options = true ->
  h1 !! lx = Some (Obj KPlain xs) ->
  h1 !! lf = Some (Obj KPlain fs) ->
  defaulted_coercion fun_body fallback options (VRef lx) h =
  Ret (if snd (fill_defaults (keys fs) fs (xs, false))
       then VRef (fresh_loc h1) else VRef lx)
      (<[fresh_loc h1 := Obj KPlain (fst (fill_defaults (keys fs) fs (xs, false)))]> h1).
Proof.
  intros Hf Hs Hx Hfs. unfold defaulted_coercion.
  unfold bind at 1. rewrite Hf.
  unfold strict_eq at 1. rewrite bool_decide_eq_false_2 by discriminate.
  unfold bind at 1. unfold reads at 1.
  assert (Hp : isPlainObject h1 (VRef lx) && isPlainObject h1 (VRef lf) = true).
  { unfold isPlainObject. simpl. rewrite Hx, Hfs. reflexivity. }
  rewrite Hp, Hs. cbn [andb].
  unfold bind at 1. unfold spread, bind at 1, reads at 1, new_object.
  cbn [own_props]. rewrite Hx. cbn [o_props].
  unfold for_in, bind at 1, bind at 1, reads at 1.
  unfold enumerable_keys.
  rewrite own_props_insert_ne by (eapply fresh_loc_ne; eassumption).
  cbn [own_props]. rewrite Hfs. cbn [o_props].
  rewrite (defaulted_loop h1 (fresh_loc h1) lf fs (keys fs))
    by (try (eapply fresh_loc_ne; eassumption); assumption).
  destruct (snd (fill_defaults (keys fs) fs (xs, false))); reflexivity.
Qed.

End Defaulted.

(** ** The coercion added by [masked] *)

Lemma masked_loop (h : heap) r lx ks :
  lx <> r ->
  forall ps,
    for_in_loop ks
      (fun key (_ : unit) =>
         let* present := in_op key (VRef lx) in
         if present then
           let* v := get_prop (VRef lx) key in put_prop (VRef r) key v
         else ret tt)
      tt (<[r := Obj KPlain ps]> h)
    = Ret tt (<[r := Obj KPlain (mask_props h (VRef lx) ks ps)]> h).
Proof.
  intros Hne. induction ks as [|k ks IH]; intros ps.
  - reflexivity.
  - cbn [for_in_loop mask_props].
    unfold bind at 1. unfold bind at 1. unfold in_op at 1. unfold reads at 1.
    rewrite has_property_insert_ne by assumption.
    destruct (has_property h (VRef lx) k).
    + unfold bind at 1. unfold get_prop at 1. unfold reads at 1.
      rewrite read_property_insert_ne by assumption.
      unfold put_prop at 1. rewrite lookup_insert_eq. cbn [o_kind o_props].
      rewrite insert_insert_eq. apply IH.
    + unfold ret at 1. apply IH.
Qed.

Lemma mask_props_no_proto h x ks : forall ps,
  has_prop "__proto__" ps = false ->
  has_prop "__proto__" (mask_props h x ks ps) = false.
Proof.
  induction ks as [|k ks IH]; intros ps H; cbn [mask_props]; [exact H|].
  apply IH. destruct (has_property h x k); [apply has_prop_assign_proto, H | exact H].
Qed.

Lemma mask_props_lookup h x ks k : forall ps,
  has_prop "__proto__" ps = false ->
  lookup_prop k (mask_props h x ks ps) =
  if negb (String.eqb k "__proto__") && mem_key k ks && has_property h x k
  then Some (read_property h x k)
  else lookup_prop k ps.
Proof.
  induction ks as [|k0 ks IH]; intros ps Hp; cbn [mask_props mem_key existsb].
  - rewrite andb_false_r. reflexivity.
  - fold (mem_key k ks).
    destruct (has_property h x k0) eqn:E0.
    + rewrite IH by (apply has_prop_assign_proto, Hp).
      rewrite (lookup_assign _ _ _ _ Hp).
      destruct (String.eqb k k0) eqn:Ek.
      * apply String.eqb_eq in Ek. subst k0. rewrite E0. cbn [orb andb].
        destruct (String.eqb k "__proto__"); cbn [negb andb]; [reflexivity|].
        destruct (mem_key k ks); reflexivity.
      * rewrite andb_false_r. cbn [orb]. reflexivity.
    + rewrite IH by exact Hp.
      destruct (String.eqb k k0) eqn:Ek.
      * apply String.eqb_eq in Ek. subst k0. rewrite E0, !andb_false_r.
        reflexivity.
      * reflexivity.
Qed.

Lemma masks_true schema x :
  masks schema x = true -> exists ls lx, schema = VRef ls /\ x = VRef lx.
Proof.
  unfold masks. destruct schema, x; simpl; try discriminate. eauto.
Qed.

Lemma masked_coercion_pass S x h :
  masks (Struct.schema S) x = false -> masked_coercion S x h = Ret x h.
Proof.
  unfold masks, masked_coercion. intros H. apply negb_false_iff in H.
  rewrite H. reflexivity.
Qed.

Lemma masked_coercion_mask S lx ox h :
  masks (Struct.schema S) (VRef lx) = true ->
  h !! lx = Some ox ->
  masked_coercion S (VRef lx) h =
  Ret (VRef (fresh_loc h))
      (<[fresh_loc h :=
           Obj KPlain (mask_props h (VRef lx)
                         (enumerable_keys h (Struct.schema S)) [])]> h).
Proof.
  intros Hm Hx. unfold masked_coercion.
  unfold masks in Hm. apply negb_true_iff in Hm. rewrite Hm.
  unfold bind at 1. unfold new_object at 1.
  unfold bind at 1. unfold for_in, bind at 1, reads at 1.
  assert (Hk : enumerable_keys (<[fresh_loc h := Obj KPlain []]> h) (Struct.schema S)
               = enumerable_keys h (Struct.schema S)).
  { unfold enumerable_keys. destruct (Struct.schema S) as [| | | | |ls|]; try reflexivity.
    destruct (decide (ls = fresh_loc h)) as [->|Hne].
    - simpl. rewrite lookup_insert_eq, fresh_loc_None. reflexivity.
    - rewrite own_props_insert_ne by assumption. reflexivity. }
  rewrite Hk.
  rewrite (masked_loop h (fresh_loc h) lx) by (eapply fresh_loc_ne; eassumption).
  reflexivity.
Qed.

(** ** [String.prototype.trim] *)

Lemma append_cons a (p q : string) : String a p ++ q = String a (p ++ q).
Proof. reflexivity. Qed.

Lemma trim_start_split s :
  exists pre, s = pre ++ trim_start s /\ all_white pre = true.
Proof.
  induction s as [|a s IH]; simpl.
  - exists "". split; reflexivity.
  - destruct (is_white_space a) eqn:E.
    + destruct IH as (pre & Hs & Hw). exists (String a pre).
      rewrite append_cons. simpl. rewrite E, Hw.
      split; [f_equal; exact Hs | reflexivity].
    + exists "". split; reflexivity.
Qed.

Lemma trim_start_not_white s : starts_white (trim_start s) = false.
Proof.
  induction s as [|a s IH]; simpl.
  - reflexivity.
  - destruct (is_white_space a) eqn:E; [exact IH | simpl; exact E].
Qed.

Lemma trim_end_split s :
  exists post, s = trim_end s ++ post /\ all_white post = true.
Proof.
  induction s as [|a s IH]; simpl.
  - exists "". split; reflexivity.
  - destruct IH as (post & Hs & Hw).
    destruct (trim_end s) as [|b t] eqn:E.
    + change ("" ++ post) with post in Hs. subst post.
      destruct (is_white_space a) eqn:Ea.
      * exists (String a s). simpl. rewrite Ea, Hw. split; reflexivity.
      * exists s. split; [reflexivity | exact Hw].
    + exists post. split; [|exact Hw]. rewrite append_cons. f_equal. exact Hs.
Qed.

Lemma trim_end_not_white s : ends_white (trim_end s) = false.
Proof.
  induction s as [|a s IH]; simpl.
  - reflexivity.
  - destruct (trim_end s) as [|b t] eqn:E.
    + destruct (is_white_space a) eqn:Ea; simpl; [reflexivity | exact Ea].
    + exact IH.
Qed.

Lemma trim_end_starts s :
  starts_white s = false -> starts_white (trim_end s) = false.
Proof.
  destruct s as [|a s]; simpl; intros H.
  - reflexivity.
  - rewrite H. destruct (trim_end s); simpl; exact H.
Qed.

Lemma trim_spec s :
  exists pre post,
    s = pre ++ trim s ++ post /\
    all_white pre = true /\ all_white post = true /\
    starts_white (trim s) = false /\ ends_white (trim s) = false.
Proof.
  destruct (trim_start_split s) as (pre & Hs & Hpre).
  destruct (trim_end_split (trim_start s)) as (post & Ht & Hpost).
  exists pre, post. unfold trim. repeat split.
  - rewrite <- Ht. exact Hs.
  - exact Hpre.
  - exact Hpost.
  - apply trim_end_starts, trim_start_not_white.
  - apply trim_end_not_white.
Qed.

(** * The claims *)

(** C1, as the code has it.  The composed coercer of
    [coerce(coerce(S, c1, t1), c2, t2)] runs the layer registered last
    first: the outer guard [c2] is checked against the input and [t2]
    applied to it, then the inner guard [c1] is checked against that
    result and [t1] applied to it, and what comes out goes through the
    original coercer of [S]. *)
Theorem coerce_order S c1 t1 c2 t2 v h :
  Struct.coercer (coerce (coerce S c1 t1) c2 t2) v h =
  outermost_first S c1 t1 c2 t2 v h.
Proof.
  rewrite coercer_coerce_layer. unfold outermost_first, bind.
  destruct (layer c2 t2 v h) as [v2 h2|e h2]; [|reflexivity].
  apply coercer_coerce_layer.
Qed.

(** C1, as stated, fails.  [defaulted(trimmed(string()), "  hi  ")] on
    [undefined]: the default is filled in first and then trimmed, which
    gives ["hi"]; with the inner layer first, [undefined] would pass the
    trimming untouched and the default would come out untrimmed. *)
Lemma coerce_order_counterexample :
  Struct.coercer
    (coerce (coerce types.string types.string call_trim) types.unknown
       (defaulted_coercion no_functions (VStr "  hi  ") no_options))
    VUndefined ∅
  = Ret (VStr "hi") ∅
  /\ innermost_first types.string types.string call_trim types.unknown
       (defaulted_coercion no_functions (VStr "  hi  ") no_options)
       VUndefined ∅
     = Ret (VStr "  hi  ") ∅
  /\ Struct.coercer
       (coerce (coerce types.string types.string call_trim) types.unknown
          (defaulted_coercion no_functions (VStr "  hi  ") no_options))
       VUndefined ∅
     <> innermost_first types.string types.string call_trim types.unknown
          (defaulted_coercion no_functions (VStr "  hi  ") no_options)
          VUndefined ∅.
Proof. split; [reflexivity | split; [reflexivity | vm_compute; discriminate]]. Qed.

(** The scenario of the specification, on the code: the default is
    filled in and then trimmed. *)
Example defaulted_then_trimmed :
  Struct.coercer
    (defaulted no_functions (trimmed types.string) (VStr "  hi  ") no_options)
    VUndefined ∅
  = Ret (VStr "hi") ∅.
Proof. reflexivity. Qed.

(** C2.  The coercer of [coerce(S, c, t)] hands [t(v)] to the original
    coercer of [S] when [v] passes the guard [c] under [is], and [v]
    itself when it does not; it raises nothing of its own: where [t] and
    the coercer of [S] return, so does it. *)
Theorem coerce_coercer_spec S c t v h :
  Struct.coercer (coerce S c t) v h =
    (if is_ v c h then bind (t v) (Struct.coercer S) h
     else Struct.coercer S v h)
  /\ ((forall x h', returns (t x h') = true) ->
      (forall x h', returns (Struct.coercer S x h') = true) ->
      returns (Struct.coercer (coerce S c t) v h) = true).
Proof.
  split; [apply coercer_coerce|].
  intros Ht HS. rewrite coercer_coerce. destruct (is_ v c h); [|apply HS].
  unfold bind. specialize (Ht v h). destruct (t v h); [apply HS | discriminate].
Qed.

Lemma coerce_coercer_spec_witness :
  Struct.coercer (coerce types.number types.string (fun _ => ret (VNum 0))) (VStr "7") ∅
    = Ret (VNum 0) ∅
  /\ returns
       (Struct.coercer (coerce types.number types.string (fun _ => ret (VNum 0)))
          (VStr "7") ∅) = true.
Proof.
  destruct (coerce_coercer_spec types.number types.string
              (fun _ => ret (VNum 0)) (VStr "7") ∅) as [Heq Hret].
  split.
  - rewrite Heq. reflexivity.
  - apply Hret; intros; reflexivity.
Defined.

(** C3, as the code has it.  Outside strict mode, on an input and a
    resolved fallback that are both plain records, the coercer that
    [defaulted(S, f)] registers builds a shallow copy of the input in
    which every key of the fallback that reads as [undefined] on the
    input holds the fallback's value: a key that the input has not, and
    does not inherit either, or a key that is [undefined] there.  It
    returns that copy if some key was filled in and the input itself
    otherwise; the input object is left as it was, and the copy made by
    the spread stays in the heap, unreachable, when it is not returned.
    The struct that [defaulted] returns passes this result on to the
    original coercer of [S]. *)
Theorem defaulted_merge fun_body S fallback options x f h h1 :
  not_strict options = true ->
  resolve_fallback fun_body fallback h = Ret f h1 ->
  isPlainObject h1 x = true ->
  isPlainObject h1 f = true ->
  exists merged,
    let r := fresh_loc h1 in
    let xs := own_props h1 x in
    let fs := own_props h1 f in
    let filled :=
      existsb (fun k => strict_eq (read_property h1 x k) VUndefined) (keys fs) in
    defaulted_coercion fun_body fallback options x h =
      Ret (if filled then VRef r else x) (<[r := Obj KPlain merged]> h1)
    /\ Struct.coercer (defaulted fun_body S fallback options) x h =
         Struct.coercer S (if filled then VRef r else x)
           (<[r := Obj KPlain merged]> h1)
    /\ h1 !! r = None
    /\ own_props (<[r := Obj KPlain merged]> h1) x = xs
    /\ (forall k,
          lookup_prop k merged =
          if strict_eq (read_property h1 x k) VUndefined
          then match lookup_prop k fs with
               | Some v => Some v
               | None => lookup_prop k xs
               end
          else lookup_prop k xs)
    /\ (filled = false -> merged = xs).
Proof.
  intros Hs Hf Hx Hfp.
  apply isPlainObject_true in Hx as (lx & xs & -> & Hlx).
  apply isPlainObject_true in Hfp as (lf & fs & -> & Hlf).
  exists (fst (fill_defaults (keys fs) fs (xs, false))).
  cbn zeta. cbn [own_props]. rewrite Hlx, Hlf. cbn [o_props].
  assert (Hrd : forall k, read_property h1 (VRef lx) k = read_plain k xs)
    by (intros k; apply read_property_plain, Hlx).
  assert (Hex : existsb (fun k => strict_eq (read_property h1 (VRef lx) k) VUndefined) (keys fs)
                = existsb (fun k => strict_eq (read_plain k xs) VUndefined) (keys fs)).
  { induction (keys fs) as [|k ks IH]; [reflexivity|]. simpl in *.
    rewrite Hlx in *. rewrite IH. reflexivity. }
  rewrite Hex.
  assert (Hc : defaulted_coercion fun_body fallback options (VRef lx) h =
    Ret (if existsb (fun k => strict_eq (read_plain k xs) VUndefined) (keys fs)
         then VRef (fresh_loc h1) else VRef lx)
        (<[fresh_loc h1 := Obj KPlain (fst (fill_defaults (keys fs) fs (xs, false)))]> h1)).
  { rewrite (defaulted_coercion_merge fun_body fallback options lx xs lf fs h h1)
      by assumption.
    rewrite fill_defaults_changed. reflexivity. }
  split; [exact Hc|]. split; [|split; [|split; [|split]]].
  - unfold defaulted. rewrite coercer_coerce_unknown. unfold bind.
    rewrite Hc. reflexivity.
  - apply fresh_loc_None.
  - rewrite lookup_insert_ne by (symmetry; eapply fresh_loc_ne; eassumption).
    rewrite Hlx. reflexivity.
  - intros k. rewrite Hrd, fill_defaults_lookup, mem_key_keys.
    destruct (strict_eq (read_plain k xs) VUndefined); [|reflexivity]. cbn [andb].
    destruct (has_prop k fs) eqn:E.
    + rewrite read_plain_lookup, (has_prop_lookup _ _ E). reflexivity.
    + rewrite (has_prop_false _ _ E). reflexivity.
  - apply fill_defaults_unchanged.
Qed.

(** The first example of the specification: the defaults [{a: 1, b: 2}]
    on the input [{a: 5}] give a copy with [a] 5 and [b] 2. *)
Lemma defaulted_merge_witness :
  exists merged,
    defaulted_coercion no_functions (VRef 2) no_options (VRef 1) sample_heap
    = Ret (VRef (fresh_loc sample_heap))
          (<[fresh_loc sample_heap := Obj KPlain merged]> sample_heap)
    /\ lookup_prop "a" merged = Some (VNum 5)
    /\ lookup_prop "b" merged = Some (VNum 2).
Proof.
  destruct (defaulted_merge no_functions (record_struct (VRef 4)) (VRef 2)
              no_options (VRef 1) (VRef 2) sample_heap sample_heap)
    as (merged & Heq & _ & _ & _ & Hl & _); try reflexivity.
  exists merged. split; [exact Heq|].
  split; [exact (Hl "a") | exact (Hl "b")].
Defined.

(** C3, as stated, fails.  [constructor] is a key of the fallback
    [{constructor: 1}] and no key of the input [{a: 5}], yet nothing is
    filled in and the input itself is returned: read on the input, the
    key yields the member inherited from [Object.prototype], not
    [undefined]. *)
Lemma defaulted_merge_counterexample :
  has_prop "constructor" (own_props member_heap (VRef 2)) = true
  /\ has_prop "constructor" (own_props member_heap (VRef 1)) = false
  /\ exists h',
       defaulted_coercion no_functions (VRef 2) no_options (VRef 1) member_heap
       = Ret (VRef 1) h'
       /\ has_prop "constructor" (own_props h' (VRef 1)) = false.
Proof.
  split; [reflexivity|]. split; [reflexivity|].
  eexists. split; [vm_compute; reflexivity | reflexivity].
Qed.

(** The second example of the specification: on the input
    [{a: 5, b: 7}] the same defaults fill nothing in, and the input
    itself is returned. *)
Example defaulted_nothing_to_fill :
  exists h',
    defaulted_coercion no_functions (VRef 2) no_options (VRef 14) sample_heap
    = Ret (VRef 14) h'
    /\ h' !! 14%positive = sample_heap !! 14%positive.
Proof. eexists. split; vm_compute; reflexivity. Qed.

(** C4.  Each of [coerce], [defaulted], [masked] and [trimmed] returns a
    struct with the type tag, the schema and the validator of its
    argument; only the coercer is replaced.  Structs are immutable
    records here, so the argument itself is untouched. *)
Theorem combinators_frame fun_body S c t fallback options :
  (Struct.type (coerce S c t) = Struct.type S
   /\ Struct.schema (coerce S c t) = Struct.schema S
   /\ Struct.validator (coerce S c t) = Struct.validator S)
  /\ (Struct.type (defaulted fun_body S fallback options) = Struct.type S
      /\ Struct.schema (defaulted fun_body S fallback options) = Struct.schema S
      /\ Struct.validator (defaulted fun_body S fallback options) = Struct.validator S)
  /\ (Struct.type (masked S) = Struct.type S
      /\ Struct.schema (masked S) = Struct.schema S
      /\ Struct.validator (masked S) = Struct.validator S)
  /\ (Struct.type (trimmed S) = Struct.type S
      /\ Struct.schema (trimmed S) = Struct.schema S
      /\ Struct.validator (trimmed S) = Struct.validator S).
Proof. repeat split. Qed.

(** C5.  On [undefined] the coercer that [defaulted(S, f)] registers
    returns the resolved fallback, whatever the options: the value [f]
    itself when [f] is not a function, and otherwise the result of
    running [f] then and there, once in each run of the coercer.  A
    function fallback is run whatever the input is: if it throws, so does
    the coercion.  The struct that [defaulted] returns passes the resolved
    fallback on to the original coercer of [S]. *)
Theorem defaulted_undefined fun_body S fallback options h :
  defaulted_coercion fun_body fallback options VUndefined h =
    resolve_fallback fun_body fallback h
  /\ (forall g,
        defaulted_coercion fun_body (VFun g) options VUndefined h = fun_body g h)
  /\ match fallback with
     | VFun _ => True
     | _ => defaulted_coercion fun_body fallback options VUndefined h =
            Ret fallback h
     end
  /\ (forall g x,
        returns (fun_body g h) = false ->
        returns (defaulted_coercion fun_body (VFun g) options x h) = false)
  /\ Struct.coercer (defaulted fun_body S fallback options) VUndefined h =
       bind (resolve_fallback fun_body fallback) (Struct.coercer S) h.
Proof.
  split; [apply defaulted_coercion_undefined|].
  split; [intros g; apply defaulted_coercion_undefined|].
  split; [|split].
  - destruct fallback; try exact I; apply defaulted_coercion_undefined.
  - intros g x Hg. unfold defaulted_coercion, bind.
    rewrite resolve_fallback_function.
    destruct (fun_body g h); [discriminate | reflexivity].
  - unfold defaulted. rewrite coercer_coerce_unknown. unfold bind.
    rewrite defaulted_coercion_undefined. reflexivity.
Qed.

(** A fallback function that throws makes the coercion throw, on an input
    that is not [undefined] as well. *)
Lemma defaulted_undefined_witness :
  returns (defaulted_coercion no_functions (VFun 0) no_options (VNum 1) ∅) = false.
Proof.
  destruct (defaulted_undefined no_functions types.unknown (VFun 0) no_options ∅)
    as (_ & _ & _ & H & _).
  apply H. reflexivity.
Defined.

(** A function fallback is run in every coercion: with [() => ({a: 1})]
    two coercions in a row yield two different objects. *)
Example defaulted_thunk_called_each_time :
  exists h',
    (let* v1 := defaulted_coercion record_thunks (VFun 0) no_options VUndefined in
     let* v2 := defaulted_coercion record_thunks (VFun 0) no_options VUndefined in
     ret (v1, v2, strict_eq v1 v2)) ∅
    = Ret (VRef 1, VRef 2, false) h'.
Proof. eexists. vm_compute. reflexivity. Qed.

(** C6.  In strict mode nothing is merged: for an input other than
    [undefined], the coercer that [defaulted(S, f)] registers resolves the
    fallback, drops it and returns the input as it came.  The struct that
    [defaulted] returns passes the input on to the original coercer of
    [S]. *)
Theorem defaulted_strict fun_body S fallback options x h :
  strict options = Some true ->
  x <> VUndefined ->
  defaulted_coercion fun_body fallback options x h =
    bind (resolve_fallback fun_body fallback) (fun _ => ret x) h
  /\ match fallback with
     | VFun _ => True
     | _ => defaulted_coercion fun_body fallback options x h = Ret x h
     end
  /\ Struct.coercer (defaulted fun_body S fallback options) x h =
       bind (resolve_fallback fun_body fallback) (fun _ => Struct.coercer S x) h.
Proof.
  intros Hs Hx.
  assert (H : forall fb,
    defaulted_coercion fun_body fb options x h =
    bind (resolve_fallback fun_body fb) (fun _ => ret x) h).
  { intros fb. unfold bind.
    destruct (resolve_fallback fun_body fb h) as [f h1|e h1] eqn:E.
    - rewrite (defaulted_coercion_keep fun_body fb options x h f h1); auto.
      unfold not_strict. rewrite Hs. reflexivity.
    - unfold defaulted_coercion, bind. rewrite E. reflexivity. }
  split; [apply H|]. split.
  - destruct fallback; try exact I; rewrite H; reflexivity.
  - unfold defaulted. rewrite coercer_coerce_unknown. unfold bind at 1.
    rewrite H. unfold bind.
    destruct (resolve_fallback fun_body fallback h); reflexivity.
Qed.

(** The example of the specification: in strict mode the defaults
    [{a: 1}] leave the input [{}] as it is, the same object in the same
    heap. *)
Lemma defaulted_strict_witness :
  defaulted_coercion no_functions (VRef 13) strict_options (VRef 12) sample_heap
  = Ret (VRef 12) sample_heap.
Proof.
  destruct (defaulted_strict no_functions types.unknown (VRef 13)
              strict_options (VRef 12) sample_heap) as (_ & Heq & _);
    [reflexivity | discriminate | exact Heq].
Defined.




(** A key that the input only inherits is copied as well: with a schema
    declaring [toString], the input [{k: 1}] is masked to an object with
    an own [toString], the member of [Object.prototype]. *)
Example masked_copies_inherited :
  exists r h',
    masked_coercion (record_struct (VRef 4)) (VRef 5) member_heap = Ret (VRef r) h'
    /\ own_props h' (VRef r) = [("toString", read_property member_heap (VRef 5) "toString")]
    /\ has_prop "toString" (own_props member_heap (VRef 5)) = false.
Proof. eexists _, _. split; [vm_compute; reflexivity|]. split; reflexivity. Qed.

(** A value that is not an object is rejected by [map(Key, Value)] where
    it stands. *)
Lemma map_fails_in_place descr Key Value v h :
  String.eqb (typeof v) "object" && negb (is_nullish v) = false ->
  fails_in_place (types.map descr Key Value) v h.
Proof.
  intros H ctx. unfold types.map.
  cbn [new_Struct Struct.validator Struct.type props_validator props_type].
  rewrite H. reflexivity.
Qed.

(** C8.  A value that a struct rejects at the root of the input yields a
    failure with the empty path, the input as its value and the input
    alone as its branch; its type is the tag of the struct.  So it is for
    ["invalid"] against [map(string(), number())]. *)
Theorem root_failure S v h :
  fails_in_place S v h ->
  exists f,
    validate v S h = Some f
    /\ Failure.path f = []
    /\ Failure.value f = v
    /\ Failure.branch f = [v]
    /\ Failure.type f = Struct.type S.
Proof.
  intros H. unfold validate. rewrite H.
  eexists. split; [reflexivity|]. repeat split.
Qed.

Lemma root_failure_witness :
  exists f,
    validate (VStr "invalid") (types.map VNull types.string types.number) ∅ = Some f
    /\ Failure.path f = []
    /\ Failure.value f = VStr "invalid"
    /\ Failure.branch f = [VStr "invalid"]
    /\ Failure.type f = "Map<string,number>".
Proof.
  apply (root_failure (types.map VNull types.string types.number) (VStr "invalid") ∅).
  intros ctx. reflexivity.
Defined.

(** Below the root the path and the branch grow: in [{a: "x"}] against
    [map(string(), number())] the value under [a] fails, with the path
    [["a"]] and the branch made of the object and that value. *)
Example nested_failure :
  validate (VRef 15) (types.map VNull types.string types.number) sample_heap
  = Some {| Failure.path := [VStr "a"];
            Failure.type := "number";
            Failure.branch := [VRef 15; VStr "x"];
            Failure.reason := None;
            Failure.value := VStr "x" |}.
Proof. reflexivity. Qed.

(** C9.  The coercion that [trimmed(S)] registers, guard and
    transformation together, maps a string to the same string without the
    whitespace at its two ends and any other value to itself: trimming
    takes away a run of whitespace on each side and leaves a string that
    neither starts nor ends with whitespace, and ["  hi  "] becomes
    ["hi"].  The struct that [trimmed] returns passes this result on to
    the original coercer of [S]. *)
Theorem trimmed_spec S v h :
  layer types.string call_trim v h =
    Ret (match v with VStr s => VStr (trim s) | _ => v end) h
  /\ Struct.coercer (trimmed S) v h =
       Struct.coercer S (match v with VStr s => VStr (trim s) | _ => v end) h
  /\ (forall s, exists pre post,
        s = pre ++ trim s ++ post /\
        all_white pre = true /\ all_white post = true /\
        starts_white (trim s) = false /\ ends_white (trim s) = false)
  /\ trim "  hi  " = "hi"
  /\ layer types.string call_trim (VNum 42) h = Ret (VNum 42) h.
Proof.
  split; [|split; [|split; [apply trim_spec | split; reflexivity]]].
  - unfold layer. rewrite is_string. destruct v; reflexivity.
  - unfold trimmed. rewrite coercer_coerce, is_string.
    destruct v; reflexivity.
Qed.



(** An array with a hole, against a schema that declares [length], [map]
    and the index of the hole: the length is that of the array, not the
    number of its elements; the inherited [map] is copied; the hole is
    not. *)
Example masked_sparse_array :
  exists r h',
    masked_coercion (record_struct (VRef 9)) (VRef 8) member_heap = Ret (VRef r) h'
    /\ own_props h' (VRef r) =
       [("length", VNum 6); ("map", read_property member_heap (VRef 8) "map")].
Proof. eexists _, _. split; [vm_compute; reflexivity | reflexivity]. Qed.
(** * Further properties of the combinators *)

Lemma preserved_refl (h : heap) : preserved h h.
Proof. intros l o H. exact H. Qed.

Lemma preserved_alloc (h : heap) o : preserved h (<[fresh_loc h := o]> h).
Proof.
  intros l o' H. rewrite lookup_insert_ne; [exact H|].
  symmetry. eapply fresh_loc_ne; eassumption.
Qed.

Lemma bind_ext {A B} (m : M A) (k k' : A -> M B) h :
  (forall a h', k a h' = k' a h') -> bind m k h = bind m k' h.
Proof. intros H. unfold bind. destruct (m h); [apply H | reflexivity]. Qed.

Lemma coerce_all_snoc S layers l :
  coerce_all S (layers ++ [l]) = coerce (coerce_all S layers) (fst l) (snd l).
Proof. unfold coerce_all. rewrite fold_left_app. reflexivity. Qed.

Lemma run_layers_cons l layers v h :
  run_layers (l :: layers) v h =
  bind (layer (fst l) (snd l) v) (run_layers layers) h.
Proof. reflexivity. Qed.

(** X1.  Any number of layers registered with [coerce] run from the one
    registered last to the one registered first, each on the outcome of
    the one before, and the original coercer of [S] runs at the end. *)
Theorem coerce_all_order S layers v h :
  Struct.coercer (coerce_all S layers) v h =
  bind (run_layers (rev layers) v) (Struct.coercer S) h.
Proof.
  revert v h. induction layers as [|l layers IH] using rev_ind; intros v h.
  - reflexivity.
  - rewrite coerce_all_snoc, coercer_coerce_layer, rev_unit.
    unfold bind at 2. rewrite run_layers_cons. unfold bind at 2.
    unfold bind at 1.
    destruct (layer (fst l) (snd l) v h) as [v' h'|e h']; [|reflexivity].
    rewrite IH. reflexivity.
Qed.

(** X2.  Given a fallback that resolves, the coercion of [defaulted]
    returns: it throws nothing of its own.  What it returns is the
    fallback, the input or a newly allocated object, and every object
    that was in the heap is still there as it was: neither the input nor
    the fallback is written to. *)
Theorem defaulted_safe fun_body fallback options x f h h1 :
  resolve_fallback fun_body fallback h = Ret f h1 ->
  exists v h',
    defaulted_coercion fun_body fallback options x h = Ret v h'
    /\ preserved h1 h'
    /\ (v = f \/ v = x \/ exists r, v = VRef r /\ h1 !! r = None).
Proof.
  intros Hf.
  destruct (decide (x = VUndefined)) as [->|Hx].
  { exists f, h1. rewrite defaulted_coercion_undefined.
    split; [exact Hf|]. split; [apply preserved_refl | left; reflexivity]. }
  destruct (not_strict options && (isPlainObject h1 x && isPlainObject h1 f)) eqn:E.
  - apply andb_true_iff in E as [Hs E]. apply andb_true_iff in E as [Hpx Hpf].
    apply isPlainObject_true in Hpx as (lx & xs & -> & Hlx).
    apply isPlainObject_true in Hpf as (lf & fs & -> & Hlf).
    eexists _, _. split.
    + apply (defaulted_coercion_merge fun_body fallback options lx xs lf fs h h1);
        assumption.
    + split; [apply preserved_alloc|].
      destruct (snd (fill_defaults (keys fs) fs (xs, false))).
      * right. right. eexists. split; [reflexivity | apply fresh_loc_None].
      * right. left. reflexivity.
  - exists x, h1. split.
    + apply (defaulted_coercion_keep fun_body fallback options x h f h1); assumption.
    + split; [apply preserved_refl | right; left; reflexivity].
Qed.

Lemma defaulted_safe_witness :
  exists v h',
    defaulted_coercion no_functions (VRef 2) no_options (VRef 1) sample_heap = Ret v h'
    /\ preserved sample_heap h'
    /\ (v = VRef 2 \/ v = VRef 1 \/ exists r, v = VRef r /\ sample_heap !! r = None).
Proof.
  apply (defaulted_safe no_functions (VRef 2) no_options (VRef 1) (VRef 2)
           sample_heap sample_heap).
  reflexivity.
Defined.

(** X3.  The coercion of [masked] returns on every input that is not a
    dangling reference: it throws nothing.  What it returns is the input
    or a newly allocated object, and every object that was in the heap is
    still there as it was: the input is never written to. *)
Theorem masked_safe S x h :
  (forall l, x = VRef l -> is_Some (h !! l)) ->
  exists v h',
    masked_coercion S x h = Ret v h'
    /\ preserved h h'
    /\ (v = x \/ exists r, v = VRef r /\ h !! r = None).
Proof.
  intros Hx. destruct (masks (Struct.schema S) x) eqn:Hm.
  - destruct (masks_true _ _ Hm) as (ls & lx & _ & ->).
    destruct (Hx lx eq_refl) as [ox Hlx].
    eexists _, _. split; [apply (masked_coercion_mask S lx ox h); assumption|].
    split; [apply preserved_alloc|].
    right. eexists. split; [reflexivity | apply fresh_loc_None].
  - exists x, h. split; [apply masked_coercion_pass; assumption|].
    split; [apply preserved_refl | left; reflexivity].
Qed.

Lemma masked_safe_witness :
  exists v h',
    masked_coercion (record_struct (VRef 6)) (VRef 5) sample_heap = Ret v h'
    /\ preserved sample_heap h'
    /\ (v = VRef 5 \/ exists r, v = VRef r /\ sample_heap !! r = None).
Proof.
  apply (masked_safe (record_struct (VRef 6)) (VRef 5) sample_heap).
  intros l H. injection H as <-. eexists. reflexivity.
Defined.

(** X4.  With a fallback that is not a function, whenever the input or
    the fallback is not a plain record (a primitive, [null], an array, a
    class instance) nothing is merged and nothing is allocated: the
    coercion of [defaulted] returns the fallback for [undefined] and the
    input itself otherwise, in the heap it started from; the struct that
    [defaulted] returns hands that value to the original coercer of
    [S]. *)
Theorem defaulted_not_plain fun_body S fallback options x h :
  String.eqb (typeof fallback) "function" = false ->
  isPlainObject h x && isPlainObject h fallback = false ->
  defaulted_coercion fun_body fallback options x h =
    Ret (if strict_eq x VUndefined then fallback else x) h
  /\ Struct.coercer (defaulted fun_body S fallback options) x h =
       Struct.coercer S (if strict_eq x VUndefined then fallback else x) h.
Proof.
  intros Ht Hp.
  assert (Hr : resolve_fallback fun_body fallback h = Ret fallback h).
  { unfold resolve_fallback. rewrite Ht. reflexivity. }
  assert (Hc : defaulted_coercion fun_body fallback options x h =
               Ret (if strict_eq x VUndefined then fallback else x) h).
  { unfold strict_eq. destruct (decide (x = VUndefined)) as [->|Hx].
    - rewrite defaulted_coercion_undefined. exact Hr.
    - rewrite bool_decide_eq_false_2 by assumption.
      apply (defaulted_coercion_keep fun_body fallback options x h fallback h);
        try assumption.
      rewrite Hp. apply andb_false_r. }
  split; [exact Hc|].
  unfold defaulted. rewrite coercer_coerce_unknown. unfold bind. rewrite Hc.
  reflexivity.
Qed.

(** An array input is not merged with a record of defaults. *)
Lemma defaulted_not_plain_witness :
  defaulted_coercion no_functions (VRef 2) no_options (VRef 9) sample_heap
  = Ret (VRef 9) sample_heap.
Proof.
  destruct (defaulted_not_plain no_functions types.unknown (VRef 2) no_options
              (VRef 9) sample_heap) as [Heq _]; [reflexivity | reflexivity | exact Heq].
Defined.

Lemma trim_start_id s : starts_white s = false -> trim_start s = s.
Proof. destruct s as [|a s]; simpl; [reflexivity|]. intros ->. reflexivity. Qed.

Lemma trim_end_cons a s :
  trim_end (String a s) =
  match trim_end s with
  | EmptyString => if is_white_space a then EmptyString else String a EmptyString
  | t => String a t
  end.
Proof. reflexivity. Qed.

Lemma trim_end_id s : ends_white s = false -> trim_end s = s.
Proof.
  induction s as [|a s IH]; [reflexivity|].
  destruct s as [|b s].
  - simpl. intros ->. reflexivity.
  - intros H. change (ends_white (String b s) = false) in H.
    rewrite trim_end_cons, (IH H). reflexivity.
Qed.

Lemma trim_idempotent s : trim (trim s) = trim s.
Proof.
  destruct (trim_spec s) as (pre & post & _ & _ & _ & Hs & He).
  unfold trim at 1. rewrite (trim_start_id _ Hs). apply trim_end_id, He.
Qed.

(** X5.  Trimming twice is trimming once: [trimmed(trimmed(S))] coerces
    every input as [trimmed(S)] does. *)
Theorem trimmed_idempotent S v h :
  Struct.coercer (trimmed (trimmed S)) v h = Struct.coercer (trimmed S) v h.
Proof.
  unfold trimmed at 1. rewrite coercer_coerce, is_string.
  destruct v; try reflexivity.
  cbn [typeof]. rewrite String.eqb_refl. unfold bind, call_trim, ret.
  unfold trimmed. rewrite !coercer_coerce, !is_string. cbn [typeof].
  rewrite String.eqb_refl. unfold bind, call_trim, ret.
  rewrite trim_idempotent. reflexivity.
Qed.

(** X6.  The order of [trimmed] and [defaulted] decides whether a string
    default is trimmed.  On [undefined], [defaulted(trimmed(S), s)] hands
    the trimmed default to the original coercer of [S], while
    [trimmed(defaulted(S, s))] hands over the default as it was written:
    there the trimming has already looked at [undefined] and let it
    through. *)
Theorem trimmed_defaulted_order fun_body S s options h :
  Struct.coercer (defaulted fun_body (trimmed S) (VStr s) options) VUndefined h =
    Struct.coercer S (VStr (trim s)) h
  /\ Struct.coercer (trimmed (defaulted fun_body S (VStr s) options)) VUndefined h =
       Struct.coercer S (VStr s) h.
Proof.
  split.
  - unfold defaulted. rewrite coercer_coerce_unknown. unfold bind.
    rewrite defaulted_coercion_undefined.
    rewrite (resolve_fallback_value fun_body (VStr s) h) by discriminate.
    cbv beta iota.
    unfold trimmed. rewrite coercer_coerce, is_string. reflexivity.
  - unfold trimmed. rewrite coercer_coerce, is_string.
    change (String.eqb (typeof VUndefined) "string") with false. cbv iota.
    unfold defaulted. rewrite coercer_coerce_unknown. unfold bind.
    rewrite defaulted_coercion_undefined.
    rewrite (resolve_fallback_value fun_body (VStr s) h) by discriminate.
    reflexivity.
Qed.



Lemma read_plain_own k ps w : lookup_prop k ps = Some w -> read_plain k ps = w.
Proof. intros H. rewrite read_plain_lookup, H. reflexivity. Qed.




Lemma masks_ref schema l l' :
  masks schema (VRef l) = masks schema (VRef l').
Proof. reflexivity. Qed.


Lemma lookup_prop_has_prop k ps :
  (if has_prop k ps then Some (prop_or_undefined k ps) else None) = lookup_prop k ps.
Proof.
  destruct (has_prop k ps) eqn:E.
  - symmetry. apply has_prop_lookup, E.
  - symmetry. apply has_prop_false, E.
Qed.




Lemma existsb_forallb_negb {A} (p : A -> bool) l :
  forallb (fun a => negb (p a)) l = true -> existsb p l = false.
Proof.
  induction l as [|a l IH]; simpl; [reflexivity|].
  intros H. apply andb_true_iff in H as [Ha Hl].
  apply negb_true_iff in Ha. rewrite Ha. apply IH, Hl.
Qed.

Lemma forallb_mem_key (p : string -> bool) ks k :
  forallb p ks = true -> mem_key k ks = true -> p k = true.
Proof.
  intros Hall Hk. unfold mem_key in Hk. apply existsb_exists in Hk as (k0 & Hin & He).
  apply String.eqb_eq in He. subst k0.
  rewrite forallb_forall in Hall. apply Hall, Hin.
Qed.

Lemma read_plain_defined k fs :
  has_prop k fs = true -> is_undefined_at k fs = false ->
  strict_eq (read_plain k fs) VUndefined = false.
Proof.
  intros Hp Hu. apply has_prop_is_Some in Hp as [w Hw].
  rewrite (read_plain_own _ _ _ Hw).
  unfold is_undefined_at, prop_or_undefined in Hu. rewrite Hw in Hu. exact Hu.
Qed.

Lemma own_keys_defined fs :
  forallb (fun k => negb (is_undefined_at k fs)) (keys fs) = true ->
  forallb (fun k => negb (strict_eq (read_plain k fs) VUndefined)) (keys fs) = true.
Proof.
  intros H. apply forallb_forall. intros k Hin.
  rewrite forallb_forall in H. specialize (H k Hin).
  apply negb_true_iff in H. apply negb_true_iff.
  apply read_plain_defined; [|exact H].
  rewrite <- mem_key_keys. unfold mem_key. apply existsb_exists.
  exists k. split; [exact Hin | apply String.eqb_refl].
Qed.

(** A table with all the keys of [fs] filled leaves nothing to fill. *)
Lemma fill_defaults_settled fs xs :
  forallb (fun k => negb (is_undefined_at k fs)) (keys fs) = true ->
  existsb (fun k => strict_eq
                      (read_plain k (fst (fill_defaults (keys fs) fs (xs, false))))
                      VUndefined)
    (keys fs) = false.
Proof.
  intros Hfs. apply existsb_forallb_negb. apply forallb_forall. intros k Hin.
  assert (Hmem : mem_key k (keys fs) = true).
  { unfold mem_key. apply existsb_exists. exists k. split; [exact Hin|].
    apply String.eqb_refl. }
  assert (Hk : strict_eq (read_plain k fs) VUndefined = false).
  { apply negb_true_iff. pose proof (own_keys_defined fs Hfs) as H.
    rewrite forallb_forall in H. apply H, Hin. }
  apply negb_true_iff. rewrite read_plain_lookup.
  rewrite fill_defaults_lookup, Hmem, andb_true_r.
  destruct (strict_eq (read_plain k xs) VUndefined) eqn:E.
  - exact Hk.
  - rewrite <- read_plain_lookup. exact E.
Qed.

(** X9.  Defaulting is idempotent when the fallback is not a function and
    holds no [undefined] among its own properties: run again on what it
    returned, the coercion of [defaulted] returns that very value. *)
Theorem defaulted_idempotent fun_body fallback options x h v h' :
  String.eqb (typeof fallback) "function" = false ->
  forallb (fun k => negb (is_undefined_at k (own_props h fallback)))
    (keys (own_props h fallback)) = true ->
  defaulted_coercion fun_body fallback options x h = Ret v h' ->
  exists h'', defaulted_coercion fun_body fallback options v h' = Ret v h''.
Proof.
  intros Ht Hfs Hrun.
  assert (Hr : forall g, resolve_fallback fun_body fallback g = Ret fallback g).
  { intros g. unfold resolve_fallback. rewrite Ht. reflexivity. }
  (* the fallback itself is settled *)
  assert (Hself : exists h'',
            defaulted_coercion fun_body fallback options fallback h = Ret fallback h'').
  { destruct (decide (fallback = VUndefined)) as [->|Hne].
    - exists h. rewrite defaulted_coercion_undefined. apply Hr.
    - destruct (not_strict options && (isPlainObject h fallback && isPlainObject h fallback)) eqn:E.
      + apply andb_true_iff in E as [Hs E]. apply andb_true_iff in E as [Hp _].
        apply isPlainObject_true in Hp as (lf & fs & -> & Hlf).
        cbn [own_props] in Hfs. rewrite Hlf in Hfs. cbn [o_props] in Hfs.
        eexists.
        rewrite (defaulted_coercion_merge fun_body (VRef lf) options lf fs lf fs h h
                   (Hr h) Hs Hlf Hlf).
        rewrite fill_defaults_changed,
          (existsb_forallb_negb _ _ (own_keys_defined fs Hfs)). reflexivity.
      + exists h. apply (defaulted_coercion_keep fun_body fallback options fallback h fallback h);
          auto. }
  destruct (decide (x = VUndefined)) as [->|Hx].
  { rewrite defaulted_coercion_undefined, Hr in Hrun.
    injection Hrun as <- <-. exact Hself. }
  destruct (not_strict options && (isPlainObject h x && isPlainObject h fallback)) eqn:E.
  - apply andb_true_iff in E as [Hs E]. apply andb_true_iff in E as [Hpx Hpf].
    apply isPlainObject_true in Hpx as (lx & xs & -> & Hlx).
    apply isPlainObject_true in Hpf as (lf & fs & -> & Hlf).
    cbn [own_props] in Hfs. rewrite Hlf in Hfs. cbn [o_props] in Hfs.
    rewrite (defaulted_coercion_merge fun_body (VRef lf) options lx xs lf fs h h
               (Hr h) Hs Hlx Hlf) in Hrun.
    injection Hrun as <- <-.
    set (r := fresh_loc h). set (res := fill_defaults (keys fs) fs (xs, false)).
    assert (Hlf' : (<[r := Obj KPlain (fst res)]> h) !! lf = Some (Obj KPlain fs)).
    { rewrite lookup_insert_ne; [exact Hlf|]. symmetry. eapply fresh_loc_ne; eassumption. }
    assert (Hlx' : (<[r := Obj KPlain (fst res)]> h) !! lx = Some (Obj KPlain xs)).
    { rewrite lookup_insert_ne; [exact Hlx|]. symmetry. eapply fresh_loc_ne; eassumption. }
    destruct (snd res) eqn:Ec.
    + eexists.
      rewrite (defaulted_coercion_merge fun_body (VRef lf) options r (fst res) lf fs _ _
                 (Hr _) Hs (lookup_insert_eq _ _ _) Hlf').
      rewrite fill_defaults_changed. unfold res.
      rewrite (fill_defaults_settled fs xs Hfs). reflexivity.
    + eexists.
      rewrite (defaulted_coercion_merge fun_body (VRef lf) options lx xs lf fs _ _
                 (Hr _) Hs Hlx' Hlf').
      fold res. rewrite Ec. reflexivity.
  - rewrite (defaulted_coercion_keep fun_body fallback options x h fallback h Hx (Hr h) E)
      in Hrun.
    injection Hrun as <- <-.
    exists h. apply (defaulted_coercion_keep fun_body fallback options x h fallback h Hx (Hr h) E).
Qed.

Lemma defaulted_idempotent_witness :
  exists h'',
    defaulted_coercion no_functions (VRef 2) no_options (VRef 16)
      (<[16%positive := Obj KPlain [("a", VNum 5); ("b", VNum 2)]]> sample_heap)
    = Ret (VRef 16) h''.
Proof.
  apply (defaulted_idempotent no_functions (VRef 2) no_options (VRef 1) sample_heap
           (VRef 16)
           (<[16%positive := Obj KPlain [("a", VNum 5); ("b", VNum 2)]]> sample_heap));
    reflexivity.
Defined.

Lemma fill_defaults_lookup_keys fs xs k :
  lookup_prop k (fst (fill_defaults (keys fs) fs (xs, false))) =
  if strict_eq (read_plain k xs) VUndefined
  then match lookup_prop k fs with
       | Some v => Some v
       | None => lookup_prop k xs
       end
  else lookup_prop k xs.
Proof.
  rewrite fill_defaults_lookup, mem_key_keys.
  destruct (strict_eq (read_plain k xs) VUndefined); [|reflexivity]. cbn [andb].
  destruct (has_prop k fs) eqn:E.
  - rewrite read_plain_lookup, (has_prop_lookup _ _ E). reflexivity.
  - rewrite (has_prop_false _ _ E). reflexivity.
Qed.

(** The value that the merge of [defaulted] returns is a plain record
    holding the merged table, whether it is the copy or the input. *)
Lemma defaulted_merge_result (h : heap) lx xs fs :
  h !! lx = Some (Obj KPlain xs) ->
  let res := fill_defaults (keys fs) fs (xs, false) in
  let h1 := <[fresh_loc h := Obj KPlain (fst res)]> h in
  exists l,
    (if snd res then VRef (fresh_loc h) else VRef lx) = VRef l
    /\ h1 !! l = Some (Obj KPlain (fst res)).
Proof.
  intros Hx res h1. destruct (snd res) eqn:E.
  - exists (fresh_loc h). split; [reflexivity | apply lookup_insert_eq].
  - exists lx. split; [reflexivity|]. unfold h1.
    rewrite lookup_insert_ne by (symmetry; eapply fresh_loc_ne; eassumption).
    unfold res in *. rewrite fill_defaults_changed in E. simpl in E.
    rewrite (fill_defaults_unchanged _ _ _ _ E). exact Hx.
Qed.



(** X11.  [masked(defaulted(S, f))] masks first and fills in the defaults
    afterwards: outside strict mode, with a plain record of defaults and
    a schema that does not declare [__proto__], the original coercer of
    [S] is given a plain record made of the masked input with every key
    of the fallback that reads as [undefined] on it filled in, so that
    every key of the fallback is to be found on it, declared in the
    schema or not. *)
Theorem masked_of_defaulted fun_body S options lx ox lf fs h :
  not_strict options = true ->
  h !! lx = Some ox ->
  h !! lf = Some (Obj KPlain fs) ->
  masks (Struct.schema S) (VRef lx) = true ->
  mem_key "__proto__" (enumerable_keys h (Struct.schema S)) = false ->
  exists ps v h2,
    (forall k,
       lookup_prop k ps =
       if mem_key k (enumerable_keys h (Struct.schema S)) && has_property h (VRef lx) k
       then Some (read_property h (VRef lx) k) else None)
    /\ Struct.coercer (masked (defaulted fun_body S (VRef lf) options)) (VRef lx) h =
         Struct.coercer S v h2
    /\ isPlainObject h2 v = true
    /\ (forall k,
          lookup_prop k (own_props h2 v) =
          if strict_eq (read_plain k ps) VUndefined
          then match lookup_prop k fs with
               | Some w => Some w
               | None => lookup_prop k ps
               end
          else lookup_prop k ps)
    /\ (forall k, has_prop k fs = true -> has_property h2 v k = true).
Proof.
  intros Hs Hx Hf Hm Hproto.
  set (ks := enumerable_keys h (Struct.schema S)) in *.
  set (ps := mask_props h (VRef lx) ks []).
  set (h1 := <[fresh_loc h := Obj KPlain ps]> h).
  assert (Hl1 : h1 !! fresh_loc h = Some (Obj KPlain ps)) by apply lookup_insert_eq.
  assert (Hf1 : h1 !! lf = Some (Obj KPlain fs)).
  { unfold h1. rewrite lookup_insert_ne; [exact Hf|].
    symmetry. eapply fresh_loc_ne; eassumption. }
  destruct (defaulted_merge_result h1 (fresh_loc h) ps fs Hl1) as (l & Hv & Hl).
  set (res := fill_defaults (keys fs) fs (ps, false)) in *.
  set (h2 := <[fresh_loc h1 := Obj KPlain (fst res)]> h1) in *.
  assert (Hlook : forall k,
            lookup_prop k (own_props h2 (VRef l)) =
            if strict_eq (read_plain k ps) VUndefined
            then match lookup_prop k fs with
                 | Some w => Some w
                 | None => lookup_prop k ps
                 end
            else lookup_prop k ps).
  { intros k. cbn [own_props]. rewrite Hl. cbn [o_props].
    apply fill_defaults_lookup_keys. }
  exists ps, (VRef l), h2.
  split.
  { intros k. unfold ps. rewrite mask_props_lookup by reflexivity.
    destruct (String.eqb k "__proto__") eqn:E; [|reflexivity].
    apply String.eqb_eq in E. subst k. rewrite Hproto. reflexivity. }
  split; [|split; [|split]].
  - unfold masked. rewrite coercer_coerce_unknown. unfold bind at 1.
    rewrite (masked_coercion_mask (defaulted fun_body S (VRef lf) options) lx ox h Hm Hx).
    change (Struct.schema (defaulted fun_body S (VRef lf) options))
      with (Struct.schema S).
    fold ks. fold ps. fold h1.
    unfold defaulted. rewrite coercer_coerce_unknown. unfold bind.
    rewrite (defaulted_coercion_merge fun_body (VRef lf) options (fresh_loc h) ps lf fs
               h1 h1 eq_refl Hs Hl1 Hf1).
    fold res. fold h2. rewrite Hv. reflexivity.
  - unfold isPlainObject. simpl. rewrite Hl. reflexivity.
  - exact Hlook.
  - intros k Hk. rewrite (has_property_plain h2 l (fst res) k Hl).
    specialize (Hlook k). cbn [own_props] in Hlook. rewrite Hl in Hlook.
    cbn [o_props] in Hlook.
    destruct (strict_eq (read_plain k ps) VUndefined) eqn:E.
    + rewrite (has_prop_lookup _ _ Hk) in Hlook.
      rewrite (proj2 (has_prop_is_Some k (fst res))) by eauto. reflexivity.
    + rewrite read_plain_lookup in E.
      destruct (lookup_prop k ps) as [w|] eqn:Ep.
      * rewrite (proj2 (has_prop_is_Some k (fst res))) by eauto. reflexivity.
      * cbn [default] in E.
        destruct (lookup_prop k Object_prototype) as [w|] eqn:Eo;
          [|discriminate E].
        rewrite (proj2 (has_prop_is_Some k Object_prototype)) by eauto.
        apply orb_true_r.
Qed.

(** With a schema declaring [a] only, the input [{a: 5}] and the defaults
    [{a: 1, b: 2}] come out as [{a: 5, b: 2}]: the default for [b] is
    filled in after the masking and stays. *)
Lemma masked_of_defaulted_witness :
  exists v h2,
    Struct.coercer
      (masked (defaulted no_functions (record_struct (VRef 4)) (VRef 2) no_options))
      (VRef 1) sample_heap = Ret v h2
    /\ lookup_prop "a" (own_props h2 v) = Some (VNum 5)
    /\ has_property h2 v "b" = true.
Proof.
  destruct (masked_of_defaulted no_functions (record_struct (VRef 4)) no_options
              1%positive (Obj KPlain [("a", VNum 5)]) 2%positive
              [("a", VNum 1); ("b", VNum 2)] sample_heap)
    as (ps & v & h2 & Hps & Heq & _ & Hl & Hall);
    [reflexivity | reflexivity | reflexivity | reflexivity | reflexivity |].
  exists v, h2. split; [exact Heq|]. split.
  - rewrite (Hl "a"). rewrite read_plain_lookup, (Hps "a"). reflexivity.
  - apply Hall. reflexivity.
Defined.

Lemma coercer_trimmed S v h :
  Struct.coercer (trimmed S) v h =
  Struct.coercer S (match v with VStr s => VStr (trim s) | _ => v end) h.
Proof.
  unfold trimmed. rewrite coercer_coerce, is_string. destruct v; reflexivity.
Qed.

(** X12.  [trimmed] and [masked] commute: on an input that is not a
    dangling reference, [trimmed(masked(S))] and [masked(trimmed(S))]
    coerce alike, since the one rewrites strings only and the other
    objects only. *)
Theorem trimmed_masked_commute S v h :
  (forall l, v = VRef l -> is_Some (h !! l)) ->
  Struct.coercer (trimmed (masked S)) v h =
  Struct.coercer (masked (trimmed S)) v h.
Proof.
  intros Hv. rewrite coercer_trimmed.
  unfold masked at 2. rewrite coercer_coerce_unknown. unfold bind.
  change (masked_coercion (trimmed S) v h) with (masked_coercion S v h).
  destruct v as [| | b | n | s | l | g].
  1-4, 7:
    unfold masked; rewrite coercer_coerce_unknown; unfold bind;
    rewrite masked_coercion_pass by (unfold masks; simpl; rewrite ?orb_true_r; reflexivity);
    rewrite coercer_trimmed; reflexivity.
  - unfold masked. rewrite coercer_coerce_unknown. unfold bind.
    rewrite !masked_coercion_pass by (unfold masks; simpl; rewrite ?orb_true_r; reflexivity).
    rewrite coercer_trimmed. reflexivity.
  - unfold masked. rewrite coercer_coerce_unknown. unfold bind.
    destruct (masks (Struct.schema S) (VRef l)) eqn:Hm.
    + destruct (Hv l eq_refl) as [o Hl].
      rewrite (masked_coercion_mask S l o h Hm Hl), coercer_trimmed. reflexivity.
    + rewrite (masked_coercion_pass S (VRef l) h Hm), coercer_trimmed. reflexivity.
Qed.

Lemma trimmed_masked_commute_witness :
  Struct.coercer (trimmed (masked (record_struct (VRef 6)))) (VRef 5) sample_heap =
  Struct.coercer (masked (trimmed (record_struct (VRef 6)))) (VRef 5) sample_heap.
Proof.
  apply (trimmed_masked_commute (record_struct (VRef 6)) (VRef 5) sample_heap).
  intros l H. injection H as <-. eexists. reflexivity.
Defined.

(** X13.  Of two defaults the one registered last wins: on [undefined],
    [defaulted(defaulted(S, f1), f2)] hands [f2] to the original coercer
    of [S] when neither fallback is a function and [f2] is neither
    [undefined] nor a plain record; [f1] is not used. *)
Theorem defaulted_outer_wins fun_body S f1 o1 f2 o2 h :
  String.eqb (typeof f1) "function" = false ->
  String.eqb (typeof f2) "function" = false ->
  f2 <> VUndefined ->
  isPlainObject h f2 = false ->
  Struct.coercer (defaulted fun_body (defaulted fun_body S f1 o1) f2 o2) VUndefined h =
  Struct.coercer S f2 h.
Proof.
  intros H1 H2 Hne Hp.
  unfold defaulted at 1. rewrite coercer_coerce_unknown. unfold bind.
  rewrite defaulted_coercion_undefined.
  unfold resolve_fallback. rewrite H2. unfold ret.
  unfold defaulted. rewrite coercer_coerce_unknown. unfold bind.
  rewrite (defaulted_coercion_keep fun_body f1 o1 f2 h f1 h Hne).
  - reflexivity.
  - unfold resolve_fallback. rewrite H1. reflexivity.
  - rewrite Hp. apply andb_false_r.
Qed.

Lemma defaulted_outer_wins_witness :
  Struct.coercer
    (defaulted no_functions (defaulted no_functions types.string (VStr "inner") no_options)
       (VStr "outer") no_options)
    VUndefined ∅
  = Ret (VStr "outer") ∅.
Proof.
  apply (defaulted_outer_wins no_functions types.string (VStr "inner") no_options
           (VStr "outer") no_options ∅);
    [reflexivity | reflexivity | discriminate | reflexivity].
Defined.
